(** * llama-config-proxy: the rule engine of the rewriting proxy

    A shallow embedding of the Go packages [config] (pattern fields, the
    boolean predicate tree, the action pipeline, the template helpers) and
    [proxy] (route matching, request / response / streaming processors).

    Conventions of the embedding.
    - A Go [map[string]T] that is only read is a [gmap string T]; the nil map
      and the empty map read alike.  The JSON body is the one map that is
      written through a reference that may be nil, so it is a [GoMap]: [None]
      is the nil map, and assigning into it panics as in Go.
    - In-place mutation of the body is explicit state passing: every function
      that mutates [data] returns the new [data].
    - A Go panic is the [Panic] outcome of the [M] monad, which also threads
      the sequence of [logger.Error] records (Info and Debug records only
      report, they are left out).
    - The Go standard library (regexp, fmt, text/template, encoding/json,
      bufio) is not part of the repository: it is the interface [GoLib].  General
      statements hold for every implementation of the interface; closed
      examples run on the small implementation [Mini.lib]. *)

From Stdlib Require Import ZArith Ascii String List Bool Lia.
From Stdlib Require Import Floats.SpecFloat.
From stdpp Require Import base option list gmap strings fin_maps pretty sorting.

Set Warnings "-register-all".
Set Default Proof Using "Type".

Local Open Scope string_scope.

(** ** Go strings *)

Module Strings.

Definition lower_ascii (c : ascii) : ascii :=
  let n := nat_of_ascii c in
  if (65 <=? n)%nat && (n <=? 90)%nat then ascii_of_nat (n + 32) else c.

(** [strings.ToLower] on the ASCII range (header names are ASCII tokens). *)
Fixpoint ToLower (s : string) : string :=
  match s with
  | EmptyString => EmptyString
  | String c s' => String (lower_ascii c) (ToLower s')
  end.

(** [strings.HasPrefix s prefix]. *)
Definition HasPrefix (s prefix : string) : bool := String.prefix prefix s.

(** [strings.TrimPrefix s prefix]. *)
Definition TrimPrefix (s prefix : string) : string :=
  if HasPrefix s prefix
  then substring (String.length prefix) (String.length s - String.length prefix) s
  else s.

(** [strings.Contains s substr]. *)
Fixpoint Contains (s substr : string) : bool :=
  HasPrefix s substr ||
  match s with
  | EmptyString => false
  | String _ s' => Contains s' substr
  end.

End Strings.

(** ** Dynamically typed values ([any]) *)

(** The dynamic types that reach the core: [nil], [bool], [int] (YAML
    integers and template constants), [float64] (every JSON number),
    [string], [[]any] and [map[string]any]. *)
Inductive value : Type :=
  | VNil
  | VBool (b : bool)
  | VInt (n : Z)
  | VFloat (f : spec_float)
  | VString (s : string)
  | VSlice (l : list value)
  | VMap (m : gmap string value).

(** A [map[string]any] held through a reference that may be nil. *)
Definition GoMap : Type := option (gmap string value).

(** Reading a Go map: the nil map reads as the empty one. *)
Definition entries (m : GoMap) : gmap string value := default ∅ m.

(** [v, ok := m[k]] *)
Definition map_index (m : GoMap) (k : string) : option value := entries m !! k.

(** [delete(m, k)]: a no-op on the nil map. *)
Definition map_delete (m : GoMap) (k : string) : GoMap := delete k <$> m.

(** ** Outcomes, panics and the error log *)

Inductive Res (A : Type) : Type :=
  | Ok (a : A)
  | Panic (msg : string).
Arguments Ok {A} a.
Arguments Panic {A} msg.

Definition res_bind {A B} (r : Res A) (k : A -> Res B) : Res B :=
  match r with
  | Ok a => k a
  | Panic msg => Panic msg
  end.

(** The message of a run that ended in a runtime panic. *)
Definition panic_message {A} (r : Res A) : option string :=
  match r with
  | Ok _ => None
  | Panic msg => Some msg
  end.

(** [m[k] = v]: the one map operation that panics on the nil map. *)
Definition map_assign (m : GoMap) (k : string) (v : value) : Res GoMap :=
  match m with
  | None => Panic "assignment to entry in nil map"
  | Some g => Ok (Some (<[k := v]> g))
  end.

(** One [logger.Error] record: its message (the key/value fields are
    diagnostics and are dropped). *)
Definition Log : Type := list string.

(** Computations that may panic and that append to the error log. *)
Definition M (A : Type) : Type := Log -> Res (A * Log).

Definition ret {A} (a : A) : M A := fun lg => Ok (a, lg).

Definition bind {A B} (c : M A) (k : A -> M B) : M B :=
  fun lg => match c lg with
            | Ok (a, lg') => k a lg'
            | Panic msg => Panic msg
            end.

Definition lift {A} (r : Res A) : M A :=
  fun lg => match r with
            | Ok a => Ok (a, lg)
            | Panic msg => Panic msg
            end.

Definition panic {A} (msg : string) : M A := fun _ => Panic msg.

Definition logger_Error (msg : string) : M unit := fun lg => Ok (tt, (lg ++ [msg])%list).

Notation "'do' x <- c ; k" := (bind c (fun x => k))
  (at level 10, x pattern, c at level 100, k at level 200).
Notation "'run' c ; k" := (bind c (fun _ => k))
  (at level 10, c at level 100, k at level 200).

(** ** The Go standard library, at its interface *)

Class GoLib : Type := {
  (** A compiled regular expression, [regexp.Compile] ([None] is a compile
      error) and the method [MatchString]. *)
  regexp_Regexp : Type;
  regexp_Compile : string -> option regexp_Regexp;
  regexp_MatchString : regexp_Regexp -> string -> bool;
  (** [fmt.Sprintf("%v", x)]. *)
  fmt_Sprintf_v : value -> string;
  (** A parsed template and its method [Execute] into a buffer: the rendered
      text, or [None] for an execution error. *)
  template_Template : Type;
  template_Execute : template_Template -> GoMap -> option string;
  (** [json.Unmarshal(bytes, &m)] for [var m map[string]any]: [None] is an
      error (also for valid JSON that is not an object), [Some None] is the
      literal null, which leaves the map nil. *)
  json_Unmarshal : string -> option GoMap;
  (** [json.Marshal(m)]; [None] is an error. *)
  json_Marshal : GoMap -> option string;
  (** A [bufio.Scanner] with its default split function (lines, end-of-line
      markers stripped) and the token limit of 1 MiB, run over a text until
      [Scan] returns false: the tokens, and the error of [Err] if any. *)
  bufio_ScanLines : string -> list string * option string;
}.

(** ** Package config *)

Section Config.
Context `{GoLib}.

(** *** Pattern fields *)

Record PatternField : Type := mkPatternField {
  Patterns : list string;
  Compiled : list regexp_Regexp
}.

Definition regexFlags : string := "(?i)".

(** The loop of [Validate]: compile every pattern under the flags, stop at
    the first that does not compile. *)
Fixpoint compile_patterns (patterns : list string) (compiled : list regexp_Regexp)
  : list regexp_Regexp * option string :=
  match patterns with
  | [] => (compiled, None)
  | pattern :: rest =>
      match regexp_Compile (regexFlags ++ pattern) with
      | None => (compiled, Some ("invalid regex pattern '" ++ pattern ++ "'"))
      | Some re => compile_patterns rest (compiled ++ [re])%list
      end
  end.

(** [PatternField.Validate] writes [p.Compiled] and returns an error or nil:
    here the written field and the error. *)
Definition PatternField_Validate (p : PatternField) : PatternField * option string :=
  let '(compiled, err) := compile_patterns (Patterns p) [] in
  ({| Patterns := Patterns p; Compiled := compiled |}, err).

(** [PatternField.Matches] *)
Definition Matches (p : PatternField) (input : string) : bool :=
  existsb (fun re => regexp_MatchString re input) (Compiled p).

(** *** The predicate tree *)

Inductive BoolExpr : Type := mkBoolExpr {
  Body : gmap string PatternField;
  Query : gmap string PatternField;
  Headers : gmap string PatternField;
  And : list BoolExpr;
  Or : list BoolExpr;
  Not : option BoolExpr
}.

Definition toStringMap (data : GoMap) : gmap string string :=
  fmt_Sprintf_v <$> entries data.

(** The copy of the headers under lower-cased keys.  Go ranges over a map
    in an unspecified order, which shows only when two keys of [headers]
    differ by case alone; this model takes the order of [map_fold]. *)
Definition normalizeHeaders (headers : gmap string string) : gmap string string :=
  map_fold (fun key value acc => <[Strings.ToLower key := value]> acc) ∅ headers.

(** One iteration of a leaf loop: the field must exist and match. *)
Definition leaf_matches (input : gmap string string) (key : string) (pattern : PatternField)
  : bool :=
  match input !! key with
  | None => false
  | Some actualValue => Matches pattern actualValue
  end.

Definition evaluateLeafMatchers (b : BoolExpr)
    (bodyStrings normalizedHeaders query : gmap string string) : bool :=
  forallb (fun '(key, pattern) => leaf_matches bodyStrings key pattern)
          (map_to_list (Body b))
  && forallb (fun '(key, pattern) => leaf_matches query key pattern)
             (map_to_list (Query b))
  && forallb (fun '(key, pattern) =>
                leaf_matches normalizedHeaders (Strings.ToLower key) pattern)
             (map_to_list (Headers b)).

(** [BoolExpr.Evaluate] on a non-nil receiver. *)
Fixpoint evaluate (b : BoolExpr) (body : GoMap) (headers query : gmap string string)
  {struct b} : bool :=
  let bodyStrings := toStringMap body in
  let normalizedHeaders := normalizeHeaders headers in
  if negb (evaluateLeafMatchers b bodyStrings normalizedHeaders query) then false
  else if (0 <? length (And b))%nat
          && negb (forallb (fun expr => evaluate expr body headers query) (And b))
  then false
  else if (0 <? length (Or b))%nat
          && negb (existsb (fun expr => evaluate expr body headers query) (Or b))
  then false
  else match Not b with
       | Some e => if evaluate e body headers query then false else true
       | None => true
       end.

(** [BoolExpr.Evaluate]: the receiver is a pointer, nil always matches. *)
Definition Evaluate (b : option BoolExpr) (body : GoMap) (headers query : gmap string string)
  : bool :=
  match b with
  | None => true
  | Some e => evaluate e body headers query
  end.

(** *** The action pipeline *)

(** [ActionExec]: an action during execution. *)
Record ActionExec : Type := mkActionExec {
  When : option BoolExpr;
  Template : string;
  Merge : gmap string value;
  Default : gmap string value;
  Delete : list string;
  Stop : bool
}.

Record CompiledRoute : Type := mkCompiledRoute {
  Compiled_OnRequest : list ActionExec;
  Compiled_OnResponse : list ActionExec;
  OnRequestTemplates : list (option template_Template);
  OnResponseTemplates : list (option template_Template)
}.

(** The value recorded for a deleted key. *)
Definition deleted : value := VString "<deleted>".

(** [maps.Copy(dst, src)], and the loops [for k, v := range src { dst[k] = v }]
    into a map made by [make]: the entries of [src] win. *)
Definition maps_Copy (dst src : gmap string value) : gmap string value := src ∪ dst.

(** One iteration of the loop of [applyMerge]. *)
Definition merge_entry (acc : Res (GoMap * gmap string value)) (kv : string * value)
  : Res (GoMap * gmap string value) :=
  let '(key, val) := kv in
  res_bind acc (fun '(data, appliedValues) =>
  res_bind (map_assign data key val) (fun data =>
  Ok (data, <[key := val]> appliedValues))).

Definition applyMerge (data : GoMap) (mergeValues appliedValues : gmap string value)
  : Res (GoMap * gmap string value) :=
  foldl merge_entry (Ok (data, appliedValues)) (map_to_list mergeValues).

(** One iteration of the loop of [applyDefault]. *)
Definition default_entry (acc : Res (GoMap * gmap string value)) (kv : string * value)
  : Res (GoMap * gmap string value) :=
  let '(key, val) := kv in
  res_bind acc (fun '(data, appliedValues) =>
  match map_index data key with
  | Some _ => Ok (data, appliedValues)
  | None =>
      res_bind (map_assign data key val) (fun data =>
      Ok (data, <[key := val]> appliedValues))
  end).

Definition applyDefault (data : GoMap) (defaultValues appliedValues : gmap string value)
  : Res (GoMap * gmap string value) :=
  foldl default_entry (Ok (data, appliedValues)) (map_to_list defaultValues).

Definition applyDelete (data : GoMap) (deleteKeys : list string)
    (appliedValues : gmap string value) : GoMap * gmap string value :=
  foldl (fun '(data, appliedValues) key =>
           match map_index data key with
           | Some _ => (map_delete data key, <[key := deleted]> appliedValues)
           | None => (data, appliedValues)
           end)
        (data, appliedValues) deleteKeys.

(** [for k := range output { delete(output, k) }] *)
Definition delete_all (output : GoMap) : GoMap := (fun _ => ∅) <$> output.

(** [for k, v := range result { output[k] = v }] *)
Definition assign_entry (acc : Res GoMap) (kv : string * value) : Res GoMap :=
  let '(k, v) := kv in res_bind acc (fun output => map_assign output k v).

Definition assign_all (output : GoMap) (result : gmap string value) : Res GoMap :=
  foldl assign_entry (Ok output) (map_to_list result).

(** [ExecuteTemplate]: the success flag and the output map as it is left.
    Both callers pass the body as [input] and as [output]; the template has
    been rendered into the buffer before [output] is touched. *)
Definition ExecuteTemplate (tmpl : template_Template) (input output : GoMap)
  : M (bool * GoMap) :=
  match template_Execute tmpl input with
  | None =>
      run logger_Error "Template execution error";
      ret (false, output)
  | Some buf =>
      match json_Unmarshal buf with
      | None =>
          run logger_Error "Template output is not valid JSON";
          ret (false, output)
      | Some result =>
          do output <- lift (assign_all (delete_all output) (entries result));
          ret (true, output)
      end
  end.

(** What one pass carries from action to action: the body, the overall
    applied-values map and the changed flag.  (The key lists and the
    counter that only feed the closing Debug record are left out, as are
    the arguments [phase], [ruleIndex], [method] and [path], which only
    feed log fields.) *)
Record Pass : Type := mkPass {
  data : GoMap;
  appliedValues : gmap string value;
  anyApplied : bool
}.

(** The template step of one loop iteration, with this action's
    [opChanges]. *)
Definition template_step (templates : list (option template_Template)) (i : nat)
    (op : ActionExec) (st : Pass) (opChanges : gmap string value)
  : M (Pass * gmap string value) :=
  if negb (String.eqb (Template op) "") then
    match templates !! i with
    | None => panic "index out of range"
    | Some None => ret (st, opChanges)
    | Some (Some tmpl) =>
        do (ok, d) <- ExecuteTemplate tmpl (data st) (data st);
        if ok : bool then
          ret ({| data := d;
                  appliedValues := maps_Copy (appliedValues st) (entries d);
                  anyApplied := true |},
               maps_Copy opChanges (entries d))
        else ret ({| data := d; appliedValues := appliedValues st;
                     anyApplied := anyApplied st |}, opChanges)
    end
  else ret (st, opChanges).

Definition default_step (op : ActionExec) (st : Pass) (opChanges : gmap string value)
  : M (Pass * gmap string value) :=
  if (0 <? size (Default op))%nat then
    do (d, opChanges) <- lift (applyDefault (data st) (Default op) opChanges);
    ret ({| data := d; appliedValues := maps_Copy (appliedValues st) opChanges;
            anyApplied := anyApplied st |}, opChanges)
  else ret (st, opChanges).

Definition merge_step (op : ActionExec) (st : Pass) (opChanges : gmap string value)
  : M (Pass * gmap string value) :=
  if (0 <? size (Merge op))%nat then
    do (d, opChanges) <- lift (applyMerge (data st) (Merge op) opChanges);
    ret ({| data := d; appliedValues := maps_Copy (appliedValues st) opChanges;
            anyApplied := anyApplied st |}, opChanges)
  else ret (st, opChanges).

Definition delete_step (op : ActionExec) (st : Pass) (opChanges : gmap string value)
  : M (Pass * gmap string value) :=
  if (0 <? length (Delete op))%nat then
    let '(d, opChanges) := applyDelete (data st) (Delete op) opChanges in
    ret ({| data := d; appliedValues := maps_Copy (appliedValues st) opChanges;
            anyApplied := anyApplied st |}, opChanges)
  else ret (st, opChanges).

(** The body of the loop for an action that is not skipped, up to the test
    of the stop flag. *)
Definition run_action (templates : list (option template_Template)) (i : nat)
    (op : ActionExec) (st : Pass) : M Pass :=
  do (st, opChanges) <- template_step templates i op st ∅;
  do (st, opChanges) <- default_step op st opChanges;
  do (st, opChanges) <- merge_step op st opChanges;
  do (st, opChanges) <- delete_step op st opChanges;
  if (0 <? size opChanges)%nat
  then ret {| data := data st; appliedValues := appliedValues st; anyApplied := true |}
  else ret st.

(** [op.When != nil && !op.When.Evaluate(data, headers, query)] *)
Definition skipped (op : ActionExec) (d : GoMap) (headers query : gmap string string)
  : bool :=
  match When op with
  | Some e => negb (evaluate e d headers query)
  | None => false
  end.

(** The loop of [processActions], from index [i] on. *)
Fixpoint actions_from (headers query : gmap string string)
    (templates : list (option template_Template)) (i : nat)
    (operations : list ActionExec) (st : Pass) : M Pass :=
  match operations with
  | [] => ret st
  | op :: rest =>
      if skipped op (data st) headers query
      then actions_from headers query templates (S i) rest st
      else
        do st <- run_action templates i op st;
        if Stop op then ret st
        else actions_from headers query templates (S i) rest st
  end.

Definition processActions (d : GoMap) (headers query : gmap string string)
    (operations : list ActionExec) (templates : list (option template_Template))
  : M Pass :=
  actions_from headers query templates 0 operations
    {| data := d; appliedValues := ∅; anyApplied := false |}.

(** [ProcessRequest] and [ProcessResponse]; [route] is a pointer. *)
Definition ProcessRequest (d : GoMap) (headers query : gmap string string)
    (route : option CompiledRoute) : M Pass :=
  match route with
  | None => panic "nil pointer dereference"
  | Some r => processActions d headers query (Compiled_OnRequest r) (OnRequestTemplates r)
  end.

Definition ProcessResponse (d : GoMap) (headers query : gmap string string)
    (route : option CompiledRoute) : M Pass :=
  match route with
  | None => panic "nil pointer dereference"
  | Some r => processActions d headers query (Compiled_OnResponse r) (OnResponseTemplates r)
  end.

(** *** Template helpers *)

(** [TemplateFuncs["default"]] *)
Definition TemplateFuncs_default (def val : value) : value :=
  match val with
  | VNil => def
  | VString v => if String.eqb v "" then def else val
  | VFloat v => if SFeqb v (S754_zero false) then def else val
  | VBool v => if negb v then def else val
  | _ => val
  end.

(** [checkKind]; of the numeric types of its second case, [int] and
    [float64] are the ones of [value]. *)
Definition checkKind (kind : string) (val : value) : M bool :=
  match val with
  | VNil => ret (String.eqb kind "nil")
  | _ =>
      if String.eqb kind "string"
      then ret (match val with VString _ => true | _ => false end)
      else if String.eqb kind "number" || String.eqb kind "float" || String.eqb kind "int"
      then ret (match val with VInt _ | VFloat _ => true | _ => false end)
      else if String.eqb kind "bool"
      then ret (match val with VBool _ => true | _ => false end)
      else if String.eqb kind "slice" || String.eqb kind "array"
      then ret (match val with VSlice _ => true | _ => false end)
      else if String.eqb kind "map"
      then ret (match val with VMap _ => true | _ => false end)
      else if String.eqb kind "nil"
      then ret false
      else run logger_Error "kindIs helper: unknown kind"; ret false
  end.

(** *** Routes *)

Record Action : Type := mkAction {
  Action_When : option BoolExpr;
  Action_WhenAny : list BoolExpr;
  Action_Template : string;
  Action_Merge : gmap string value;
  Action_Default : gmap string value;
  Action_Delete : list string;
  Action_Stop : bool
}.

Record Route : Type := mkRoute {
  Methods : PatternField;
  Paths : PatternField;
  TargetPath : string;
  OnRequest : list Action;
  OnResponse : list Action;
  Route_Compiled : option CompiledRoute
}.

End Config.

(** ** Package proxy *)

Section Proxy.
Context `{GoLib}.

(** The matched routes of a transaction, with their indices in the
    configuration.  The Go slices hold pointers into the route slice, which
    is read-only here, so the routes themselves stand for them. *)
Record responseRouteContext : Type := mkRouteContext {
  rules : list Route;
  indices : list Z
}.

(** What the request context holds under [routeContextKey]. *)
Inductive ContextValue : Type :=
  | NoContextValue
  | RouteContextValue (v : responseRouteContext)
  | SingleRouteValue (v : Route).

(** The parts of [http.Request] that the core reads or writes.  [URL_Query]
    is [URL.Query()]; [Body] is the content of the body stream, [None] for
    a nil body (reading it is taken to succeed). *)
Record Request : Type := mkRequest {
  Method : string;
  URL_Path : string;
  URL_Query : gmap string (list string);
  Header : gmap string (list string);
  Request_Body : option string;
  ContentLength : Z;
  Context_Value : ContextValue
}.

Record Response : Type := mkResponse {
  Response_Header : gmap string (list string);
  Response_Body : string;
  Response_ContentLength : Z;
  Response_Request : Request
}.

(** [for key, values := range h { if len(values) > 0 { m[key] = values[0] } }] *)
Definition first_values (h : gmap string (list string)) : gmap string string :=
  omap head h.

(** [extractQueryParams] *)
Definition extractQueryParams (query : gmap string (list string)) : gmap string string :=
  first_values query.

(** [http.Header.Get] for a key given in canonical form. *)
Definition Header_Get (h : gmap string (list string)) (key : string) : string :=
  match h !! key with
  | Some (v :: _) => v
  | _ => ""
  end.

(** [io.ReadAll(io.LimitReader(body, 10*1024*1024))] *)
Definition read_limited (body : string) : string :=
  let limit := (10 * 1024 * 1024)%Z in
  if (Z.of_nat (String.length body) <=? limit)%Z then body
  else substring 0 (Z.to_nat limit) body.

(** The loop of [MatchRoutes], from index [i] on. *)
Fixpoint match_from (method path : string) (i : Z) (routes : list Route)
  : list Route * list Z :=
  match routes with
  | [] => ([], [])
  | route :: rest =>
      let methodMatch := Matches (Methods route) method in
      let pathMatch := Matches (Paths route) path in
      let '(matchedRoutes, matchedIndices) := match_from method path (i + 1) rest in
      if methodMatch && pathMatch
      then (route :: matchedRoutes, i :: matchedIndices)
      else (matchedRoutes, matchedIndices)
  end.

Definition MatchRoutes (req : Request) (routes : list Route) : list Route * list Z :=
  match_from (Method req) (URL_Path req) 0 routes.

Definition FindMatchingRoutes (req : Request) (routes : list Route) : list Route :=
  fst (MatchRoutes req routes).

(** What the route loop of [ModifyRequest] carries. *)
Record RequestLoop : Type := mkRequestLoop {
  rl_path : string;
  rl_data : GoMap;
  rl_anyModified : bool;
  rl_allAppliedValues : gmap string value;
  rl_matched : responseRouteContext
}.

Definition request_route (hasJSONBody : bool) (headers query : gmap string string)
    (rule : Route) (routeIndex : Z) (st : RequestLoop) : M RequestLoop :=
  let matched := {| rules := (rules (rl_matched st) ++ [rule])%list;
                    indices := (indices (rl_matched st) ++ [routeIndex])%list |} in
  let path :=
    if negb (String.eqb (TargetPath rule) "")
       && negb (String.eqb (TargetPath rule) (rl_path st))
    then TargetPath rule else rl_path st in
  if negb hasJSONBody || (length (OnRequest rule) =? 0)%nat
  then ret {| rl_path := path; rl_data := rl_data st;
              rl_anyModified := rl_anyModified st;
              rl_allAppliedValues := rl_allAppliedValues st;
              rl_matched := matched |}
  else
    do r <- ProcessRequest (rl_data st) headers query (Route_Compiled rule);
    ret {| rl_path := path; rl_data := data r;
           rl_anyModified := rl_anyModified st || anyApplied r;
           rl_allAppliedValues :=
             if anyApplied r
             then maps_Copy (rl_allAppliedValues st) (appliedValues r)
             else rl_allAppliedValues st;
           rl_matched := matched |}.

Fixpoint request_routes (hasJSONBody : bool) (headers query : gmap string string)
    (matched : list (Route * Z)) (st : RequestLoop) : M RequestLoop :=
  match matched with
  | [] => ret st
  | (rule, routeIndex) :: rest =>
      do st <- request_route hasJSONBody headers query rule routeIndex st;
      request_routes hasJSONBody headers query rest st
  end.

(** [ModifyRequest]: the request as it is left. *)
Definition ModifyRequest (req : Request) (routes : list Route) : M Request :=
  let body := match Request_Body req with
              | Some b => read_limited b
              | None => ""
              end in
  let parsed := if (0 <? String.length body)%nat then json_Unmarshal body else None in
  let hasJSONBody := match parsed with Some _ => true | None => false end in
  let d : GoMap := match parsed with Some m => m | None => None end in
  let headers := first_values (Header req) in
  let query := extractQueryParams (URL_Query req) in
  let '(matchedRoutes, matchedRouteIndices) := MatchRoutes req routes in
  do st <- request_routes hasJSONBody headers query
             (combine matchedRoutes matchedRouteIndices)
             {| rl_path := URL_Path req; rl_data := d; rl_anyModified := false;
                rl_allAppliedValues := ∅;
                rl_matched := {| rules := []; indices := [] |} |};
  let ctx := if (0 <? length (rules (rl_matched st)))%nat
             then RouteContextValue (rl_matched st)
             else Context_Value req in
  let out (b : option string) (len : Z) :=
    {| Method := Method req; URL_Path := rl_path st; URL_Query := URL_Query req;
       Header := Header req; Request_Body := b; ContentLength := len;
       Context_Value := ctx |} in
  if hasJSONBody then
    match json_Marshal (rl_data st) with
    | None =>
        run logger_Error "Failed to marshal modified request JSON";
        ret (out (Some body) (ContentLength req))
    | Some modifiedBody =>
        ret (out (Some modifiedBody) (Z.of_nat (String.length modifiedBody)))
    end
  else if (0 <? String.length body)%nat
  then ret (out (Some body) (ContentLength req))
  else ret (out (Request_Body req) (ContentLength req)).

(** The route loops of the response side: the body, the changed flag and
    the applied values after the routes.  [ModifyResponse] copies the
    values of every route that ran, the streaming loop only those of a
    route that reported a change. *)
Fixpoint response_routes (always_copy : bool) (headers query : gmap string string)
    (routes : list Route) (d : GoMap) (modified : bool)
    (applied : gmap string value) : M (GoMap * bool * gmap string value) :=
  match routes with
  | [] => ret (d, modified, applied)
  | route :: rest =>
      if (length (OnResponse route) =? 0)%nat
         || match Route_Compiled route with None => true | Some _ => false end
      then response_routes always_copy headers query rest d modified applied
      else
        do r <- ProcessResponse d headers query (Route_Compiled route);
        response_routes always_copy headers query rest (data r)
          (modified || anyApplied r)
          (if always_copy || anyApplied r
           then maps_Copy applied (appliedValues r) else applied)
  end.

Definition newline : string := String (ascii_of_nat 10) EmptyString.

Definition sse_prefix : string := "data: ".

(** One iteration of the scanner loop of [ModifyStreamingResponse]: the
    bytes written to the pipe for [line].  (The consumer is taken to drain
    the pipe, so that every write succeeds.) *)
Definition stream_line (headers query : gmap string string) (routes : list Route)
    (line : string) : M string :=
  if String.eqb line "" then ret newline
  else
    let isSSE := Strings.HasPrefix line sse_prefix in
    if isSSE && String.eqb (Strings.TrimPrefix line sse_prefix) "[DONE]"
    then ret (line ++ newline)
    else
      let jsonData := if isSSE then Strings.TrimPrefix line sse_prefix else line in
      match json_Unmarshal jsonData with
      | None => ret (line ++ newline)
      | Some d =>
          do (d, _, _) <- response_routes false headers query routes d false ∅;
          match json_Marshal d with
          | None =>
              run logger_Error "Failed to marshal modified streaming chunk";
              ret (line ++ newline)
          | Some modifiedJSON =>
              ret ((if isSSE then sse_prefix else "") ++ modifiedJSON ++ newline)
          end
      end.

Fixpoint stream_lines (headers query : gmap string string) (routes : list Route)
    (lines : list string) : M (list string) :=
  match lines with
  | [] => ret []
  | line :: rest =>
      do out <- stream_line headers query routes line;
      do outs <- stream_lines headers query routes rest;
      ret (out :: outs)
  end.

(** [ModifyStreamingResponse]: the response whose body is what the reader
    of the pipe receives, and the error that ends the reading, if any.
    (The route indices only feed log fields.) *)
Definition ModifyStreamingResponse (resp : Response) (routes : list Route)
  : M (Response * option string) :=
  let headers := first_values (Response_Header resp) in
  let query := extractQueryParams (URL_Query (Response_Request resp)) in
  let '(lines, scanErr) := bufio_ScanLines (Response_Body resp) in
  do outs <- stream_lines headers query routes lines;
  do _ <- match scanErr with
          | Some _ => logger_Error "Streaming scanner error"
          | None => ret tt
          end;
  ret ({| Response_Header := Response_Header resp;
          Response_Body := String.concat "" outs;
          Response_ContentLength := Response_ContentLength resp;
          Response_Request := Response_Request resp |}, scanErr).

(** [ModifyResponse]: the response as it is left, and the returned error.
    In the streaming case the second component is the error that ends the
    reading of the body.  (As in the source, the matched routes come from the
    request context and [routes] is not read.) *)
Definition ModifyResponse (resp : Response) (routes : list Route)
  : M (Response * option string) :=
  let contentType := Header_Get (Response_Header resp) "Content-Type" in
  let matchedRoutes :=
    match Context_Value (Response_Request resp) with
    | RouteContextValue v => rules v
    | SingleRouteValue v => [v]
    | NoContextValue => []
    end in
  if Strings.Contains contentType "text/event-stream"
  then ModifyStreamingResponse resp matchedRoutes
  else
    let body := read_limited (Response_Body resp) in
    let out (b : string) :=
      {| Response_Header := Response_Header resp; Response_Body := b;
         Response_ContentLength := Z.of_nat (String.length b);
         Response_Request := Response_Request resp |} in
    if (length matchedRoutes =? 0)%nat then ret (out body, None)
    else if negb (existsb (fun r => (0 <? length (OnResponse r))%nat) matchedRoutes)
    then ret (out body, None)
    else if negb (Strings.Contains contentType "application/json")
    then ret (out body, None)
    else
      match json_Unmarshal body with
      | None => ret (out body, None)
      | Some d =>
          let headers := first_values (Response_Header resp) in
          let query := extractQueryParams (URL_Query (Response_Request resp)) in
          do (d, _, _) <- response_routes true headers query matchedRoutes d false ∅;
          match json_Marshal d with
          | None => ret (out body, Some "failed to marshal modified response JSON")
          | Some modifiedBody => ret (out modifiedBody, None)
          end
      end.

End Proxy.

(** ** Routes that only merge, and routes with their indices *)

Section MergeRoutes.
Context `{GoLib}.

(** An unconditional action that merges [values], as the configuration has
    it and as the pipeline runs it. *)
Definition merge_action (values : gmap string value) : ActionExec :=
  {| When := None; Template := ""; Merge := values; Default := ∅;
     Delete := []; Stop := false |}.

Definition config_action (values : gmap string value) : Action :=
  {| Action_When := None; Action_WhenAny := []; Action_Template := "";
     Action_Merge := values; Action_Default := ∅; Action_Delete := [];
     Action_Stop := false |}.

(** A compiled route with that one action in its request phase. *)
Definition merge_on_request (methods paths : PatternField) (values : gmap string value)
  : Route :=
  {| Methods := methods; Paths := paths;
     TargetPath := ""; OnRequest := [config_action values]; OnResponse := [];
     Route_Compiled :=
       Some {| Compiled_OnRequest := [merge_action values]; Compiled_OnResponse := [];
               OnRequestTemplates := [None]; OnResponseTemplates := [] |} |}.

(** A compiled route with that one action in its response phase. *)
Definition merge_on_response (methods paths : PatternField) (values : gmap string value)
  : Route :=
  {| Methods := methods; Paths := paths;
     TargetPath := ""; OnRequest := []; OnResponse := [config_action values];
     Route_Compiled :=
       Some {| Compiled_OnRequest := []; Compiled_OnResponse := [merge_action values];
               OnRequestTemplates := []; OnResponseTemplates := [None] |} |}.



End MergeRoutes.

(** ** A small implementation of the library interface

    [Mini.lib] implements [GoLib] on a fragment that is large enough to run
    the examples of the repository's tests: regular expressions made of
    literal characters, [.], a starred character, [^] and [$], under the
    [(?i)] flag; JSON texts made of objects, arrays, strings without escapes,
    integers, booleans and null; templates given by the function they
    compute.  Inputs outside the fragment are rejected; no general statement
    depends on this implementation. *)

Module Mini.

(** *** Regular expressions *)

Inductive atom : Type :=
  | Lit (c : ascii)
  | AnyChar.

Inductive item : Type :=
  | One (a : atom)
  | Star (a : atom).

Record regex : Type := mkRegex {
  fold_case : bool;
  at_start : bool;
  items : list item;
  at_end : bool
}.

Definition is_meta (c : ascii) : bool :=
  existsb (Ascii.eqb c) (list_ascii_of_string "[](){}|+?\*^$").

Definition atom_of (c : ascii) : atom :=
  if Ascii.eqb c "." then AnyChar else Lit c.

(** The items of a pattern body; [None] outside the fragment. *)
Fixpoint parse_items (cs : list ascii) : option (list item) :=
  match cs with
  | [] => Some []
  | c :: rest =>
      if is_meta c then None
      else match rest with
           | star :: rest' =>
               if Ascii.eqb star "*"
               then cons (Star (atom_of c)) <$> parse_items rest'
               else cons (One (atom_of c)) <$> parse_items rest
           | [] => Some [One (atom_of c)]
           end
  end.

Definition strip_start (cs : list ascii) : bool * list ascii :=
  match cs with
  | c :: rest => if Ascii.eqb c "^" then (true, rest) else (false, cs)
  | [] => (false, [])
  end.

Definition strip_end (cs : list ascii) : bool * list ascii :=
  match reverse cs with
  | c :: rest => if Ascii.eqb c "$" then (true, reverse rest) else (false, cs)
  | [] => (false, [])
  end.

Definition Compile (expr : string) : option regex :=
  let fold := Strings.HasPrefix expr "(?i)" in
  let '(bol, cs) := strip_start (list_ascii_of_string (Strings.TrimPrefix expr "(?i)")) in
  let '(eol, cs) := strip_end cs in
  (fun its => {| fold_case := fold; at_start := bol; items := its; at_end := eol |})
    <$> parse_items cs.

Definition atom_matches (fold : bool) (a : atom) (c : ascii) : bool :=
  match a with
  | AnyChar => negb (Ascii.eqb c (ascii_of_nat 10))
  | Lit l =>
      if fold then Ascii.eqb (Strings.lower_ascii l) (Strings.lower_ascii c)
      else Ascii.eqb l c
  end.

(** Does a match of the items start at the head of [s]? *)
Fixpoint match_here (fold eol : bool) (its : list item) (s : list ascii) : bool :=
  match its with
  | [] => if eol then match s with [] => true | _ => false end else true
  | One a :: rest =>
      match s with
      | c :: s' => atom_matches fold a c && match_here fold eol rest s'
      | [] => false
      end
  | Star a :: rest =>
      (fix star (s : list ascii) : bool :=
         match_here fold eol rest s
         || match s with
            | c :: s' => atom_matches fold a c && star s'
            | [] => false
            end) s
  end.

Fixpoint match_anywhere (fold eol : bool) (its : list item) (s : list ascii) : bool :=
  match_here fold eol its s
  || match s with
     | _ :: s' => match_anywhere fold eol its s'
     | [] => false
     end.

Definition Match (re : regex) (s : string) : bool :=
  let cs := list_ascii_of_string s in
  if at_start re then match_here (fold_case re) (at_end re) (items re) cs
  else match_anywhere (fold_case re) (at_end re) (items re) cs.

(** *** Numbers, fmt *)

Definition float64_of_Z (n : Z) (negative_zero : bool) : spec_float :=
  binary_normalize 53 1024 n 0 negative_zero.

(** The integer that a float equals, if it equals one. *)
Definition integer_of_float (f : spec_float) : option Z :=
  match f with
  | S754_zero _ => Some 0%Z
  | S754_finite s m e =>
      let sign := if s then (-1)%Z else 1%Z in
      if (0 <=? e)%Z then Some (sign * (Zpos m * 2 ^ e))%Z
      else if (Zpos m mod 2 ^ (- e) =? 0)%Z then Some (sign * (Zpos m / 2 ^ (- e)))%Z
      else None
  | _ => None
  end.

(** The decimal digits of an integral float below [bound] in magnitude
    (up to [2 ^ 53] the shortest digits that Go prints are the exact ones). *)
Definition print_integral (bound : Z) (f : spec_float) : option string :=
  match f with
  | S754_zero true => Some "-0"
  | _ =>
      n ← integer_of_float f;
      if (Z.abs n <? bound)%Z then Some (pretty n) else None
  end.

Definition by_key {A} (a b : string * A) : Prop := Is_true (String.leb a.1 b.1).

Definition sorted_entries {A} (m : gmap string A) : list (string * A) :=
  merge_sort by_key (map_to_list m).

(** The verb [%v]: floats are printed in the range where Go prints plain
    digits. *)
Fixpoint Sprintf_v (v : value) : string :=
  match v with
  | VNil => "<nil>"
  | VBool b => if b then "true" else "false"
  | VInt n => pretty n
  | VFloat f => default "%!v(unsupported)" (print_integral (10 ^ 6) f)
  | VString s => s
  | VSlice l => "[" ++ String.concat " " (Sprintf_v <$> l) ++ "]"
  | VMap m =>
      "map[" ++ String.concat " "
                  ((fun kv => kv.1 ++ ":" ++ kv.2) <$> sorted_entries (Sprintf_v <$> m))
      ++ "]"
  end.

(** *** JSON *)

Definition quote : ascii := ascii_of_nat 34.

Definition is_quote (c : ascii) : bool := Ascii.eqb c quote.

Definition is_space (c : ascii) : bool :=
  existsb (fun n => (nat_of_ascii c =? n)%nat) [32; 9; 10; 13].

Definition digit_of (c : ascii) : option Z :=
  let n := nat_of_ascii c in
  if (48 <=? n)%nat && (n <=? 57)%nat then Some (Z.of_nat (n - 48)) else None.

Fixpoint skip_space (cs : list ascii) : list ascii :=
  match cs with
  | c :: rest => if is_space c then skip_space rest else cs
  | [] => []
  end.

(** The characters of a string up to its closing quote; escapes and
    control characters are outside the fragment. *)
Fixpoint parse_chars (cs : list ascii) : option (string * list ascii) :=
  match cs with
  | [] => None
  | c :: rest =>
      if is_quote c then Some ("", rest)
      else if Ascii.eqb c "\" || (nat_of_ascii c <? 32)%nat then None
      else '(s, rest') ← parse_chars rest; Some (String c s, rest')
  end.

Fixpoint parse_digits (cs : list ascii) (acc : Z) : Z * list ascii :=
  match cs with
  | c :: rest =>
      match digit_of c with
      | Some d => parse_digits rest (10 * acc + d)%Z
      | None => (acc, cs)
      end
  | [] => (acc, [])
  end.

(** An integer literal; a fraction or an exponent is outside the fragment. *)
Definition parse_number (cs : list ascii) : option (value * list ascii) :=
  let '(negative, cs) :=
    match cs with
    | c :: rest => if Ascii.eqb c "-" then (true, rest) else (false, cs)
    | [] => (false, [])
    end in
  match cs with
  | c :: rest =>
      d ← digit_of c;
      let '(n, rest') := parse_digits rest d in
      let leading_zero :=
        (d =? 0)%Z && match rest with c' :: _ => bool_decide (is_Some (digit_of c')) | [] => false end in
      let continues :=
        match rest' with
        | c' :: _ => existsb (Ascii.eqb c') (list_ascii_of_string ".eE")
        | [] => false
        end in
      if leading_zero || continues then None
      else Some (VFloat (float64_of_Z (if negative then - n else n) negative), rest')
  | [] => None
  end.

Fixpoint parse_value (fuel : nat) (cs : list ascii) : option (value * list ascii) :=
  match fuel with
  | O => None
  | S fuel =>
      match skip_space cs with
      | "n" :: "u" :: "l" :: "l" :: rest => Some (VNil, rest)
      | "t" :: "r" :: "u" :: "e" :: rest => Some (VBool true, rest)
      | "f" :: "a" :: "l" :: "s" :: "e" :: rest => Some (VBool false, rest)
      | "{" :: rest =>
          match skip_space rest with
          | "}" :: rest' => Some (VMap ∅, rest')
          | _ => '(m, rest') ← parse_members fuel rest ∅; Some (VMap m, rest')
          end
      | "[" :: rest =>
          match skip_space rest with
          | "]" :: rest' => Some (VSlice [], rest')
          | _ => '(l, rest') ← parse_elements fuel rest; Some (VSlice l, rest')
          end
      | c :: rest =>
          if is_quote c then '(s, rest') ← parse_chars rest; Some (VString s, rest')
          else parse_number (c :: rest)
      | [] => None
      end%char
  end
with parse_members (fuel : nat) (cs : list ascii) (acc : gmap string value)
  : option (gmap string value * list ascii) :=
  match fuel with
  | O => None
  | S fuel =>
      match skip_space cs with
      | c :: rest =>
          if is_quote c then
            '(k, rest) ← parse_chars rest;
            match skip_space rest with
            | ":" :: rest =>
                '(v, rest) ← parse_value fuel rest;
                match skip_space rest with
                | "," :: rest => parse_members fuel rest (<[k := v]> acc)
                | "}" :: rest => Some (<[k := v]> acc, rest)
                | _ => None
                end
            | _ => None
            end
          else None
      | [] => None
      end%char
  end
with parse_elements (fuel : nat) (cs : list ascii) : option (list value * list ascii) :=
  match fuel with
  | O => None
  | S fuel =>
      '(v, rest) ← parse_value fuel cs;
      match skip_space rest with
      | "," :: rest => '(l, rest) ← parse_elements fuel rest; Some (v :: l, rest)
      | "]" :: rest => Some ([v], rest)
      | _ => None
      end%char
  end.

(** Unmarshalling into a [map[string]any] variable: an object fills the
    map, null leaves it nil, any other value is a type error. *)
Definition Unmarshal (text : string) : option GoMap :=
  let cs := list_ascii_of_string text in
  '(v, rest) ← parse_value (2 * length cs + 2) cs;
  match skip_space rest, v with
  | [], VMap m => Some (Some m)
  | [], VNil => Some None
  | _, _ => None
  end.

(** A string is printed when it needs no escape. *)
Definition print_string (s : string) : option string :=
  if forallb (fun c => (32 <=? nat_of_ascii c)%nat && (nat_of_ascii c <? 127)%nat
                       && negb (existsb (Ascii.eqb c) (quote :: list_ascii_of_string "\<>&")))
             (list_ascii_of_string s)
  then Some (String quote (s ++ String quote "")) else None.

Definition sequence {A} (l : list (option A)) : option (list A) := mapM id l.

(** Marshalling: no white space, object keys in sorted order. *)
Fixpoint print_value (v : value) : option string :=
  match v with
  | VNil => Some "null"
  | VBool b => Some (if b then "true" else "false")
  | VInt n => Some (pretty n)
  | VFloat f => print_integral (2 ^ 53) f
  | VString s => print_string s
  | VSlice l =>
      items ← sequence (print_value <$> l);
      Some ("[" ++ String.concat "," items ++ "]")
  | VMap m =>
      members ← sequence ((fun kv => k ← print_string kv.1; x ← kv.2; Some (k ++ ":" ++ x))
                           <$> sorted_entries (print_value <$> m));
      Some ("{" ++ String.concat "," members ++ "}")
  end.

Definition Marshal (m : GoMap) : option string :=
  match m with
  | None => Some "null"
  | Some g => print_value (VMap g)
  end.

(** *** Lines *)

Definition dropCR (rev_line : list ascii) : string :=
  string_of_list_ascii
    (reverse match rev_line with
             | c :: rest => if (nat_of_ascii c =? 13)%nat then rest else rev_line
             | [] => []
             end).

(** The tokens of the line scanner; [cur] is the current line, reversed. *)
Fixpoint scan_lines (cs cur : list ascii) : list string :=
  match cs with
  | [] => match cur with [] => [] | _ => [dropCR cur] end
  | c :: rest =>
      if (nat_of_ascii c =? 10)%nat then dropCR cur :: scan_lines rest []
      else scan_lines rest (c :: cur)
  end.

Definition ScanLines (text : string) : list string * option string :=
  (scan_lines (list_ascii_of_string text) [], None).

(** *** The implementation *)

Definition lib : GoLib := {|
  regexp_Regexp := regex;
  regexp_Compile := Compile;
  regexp_MatchString := Match;
  fmt_Sprintf_v := Sprintf_v;
  template_Template := GoMap -> option string;
  template_Execute := fun tmpl input => tmpl input;
  json_Unmarshal := Unmarshal;
  json_Marshal := Marshal;
  bufio_ScanLines := ScanLines
|}.

End Mini.

(** ** Inputs of the examples *)

Module Examples.

#[local] Existing Instance Mini.lib.

(** A pattern field as [Validate] leaves it. *)
Definition newPatternField (pattern : string) : PatternField :=
  fst (PatternField_Validate {| Patterns := [pattern]; Compiled := [] |}).

Definition noExpr : BoolExpr :=
  {| Body := ∅; Query := ∅; Headers := ∅; And := []; Or := []; Not := None |}.

Definition action : ActionExec :=
  {| When := None; Template := ""; Merge := ∅; Default := ∅; Delete := []; Stop := false |}.

(** A node on the header [X-Env], and the header sent in lower case. *)
Definition env_node : BoolExpr :=
  {| Body := ∅; Query := ∅; Headers := {[ "X-Env" := newPatternField "prod" ]};
     And := []; Or := []; Not := None |}.

Definition lower_case_headers : gmap string string := {[ "x-env" := "PROD-2" ]}.

(** The three actions of [TestProcessActionsMatchHeadersDeleteAndStop]. *)
Definition stop_ops : list ActionExec :=
  [ {| When := Some env_node;
       Template := ""; Merge := {[ "seen" := VInt 1 ]}; Default := ∅;
       Delete := []; Stop := false |};
    {| When := Some {| Body := {[ "remove_me" := newPatternField ".*" ]};
                       Query := ∅; Headers := ∅;
                       And := []; Or := []; Not := None |};
       Template := ""; Merge := ∅; Default := ∅;
       Delete := ["remove_me"]; Stop := true |};
    {| When := None; Template := ""; Merge := {[ "unreachable" := VBool true ]};
       Default := ∅; Delete := []; Stop := false |} ].

Definition stop_headers : gmap string string := {[ "X-Env" := "prod" ]}.

Definition stop_body : gmap string value :=
  {[ "keep" := VString "x"; "remove_me" := VString "y" ]}.

Definition request_merge_route (method path : string) (values : gmap string value) : Route :=
  merge_on_request (newPatternField method) (newPatternField path) values.

Definition response_merge_route (method path : string) (values : gmap string value) : Route :=
  merge_on_response (newPatternField method) (newPatternField path) values.

(** The two routes of [TestModifyResponseAppliesAllMatchedRules]. *)
Definition chat_routes : list Route :=
  [ response_merge_route "POST" "^/v1/chat$" {[ "first" := VBool true ]};
    response_merge_route "POST" "^/v1/chat$" {[ "second" := VString "yes" ]} ].

Definition q (s : string) : string := String Mini.quote (s ++ String Mini.quote "").

Definition request (method path : string) (body : option string) : Request :=
  {| Method := method; URL_Path := path; URL_Query := ∅;
     Header := {[ "Content-Type" := ["application/json"] ]};
     Request_Body := body; ContentLength := 0; Context_Value := NoContextValue |}.

Definition response (contentType body : string) (req : Request) : Response :=
  {| Response_Header := {[ "Content-Type" := [contentType] ]};
     Response_Body := body; Response_ContentLength := 0; Response_Request := req |}.

(** [{"original":true}] *)
Definition original_body : string := "{" ++ q "original" ++ ":true}".

(** A request as [ModifyRequest] leaves it when [rules] matched. *)
Definition matched_request (method path : string) (rules : list Route) : Request :=
  {| Method := method; URL_Path := path; URL_Query := ∅;
     Header := {[ "Content-Type" := ["application/json"] ]};
     Request_Body := None; ContentLength := 0;
     Context_Value :=
       RouteContextValue {| rules := rules;
                            indices := Z.of_nat <$> seq 0 (length rules) |} |}.

(** An action that only sets a default. *)
Definition default_action : ActionExec :=
  {| When := None; Template := ""; Merge := ∅; Default := {[ "max_tokens" := VInt 100 ]};
     Delete := []; Stop := false |}.

(** A request whose body is the literal null, for a route that merges. *)
Definition null_request : Request := request "POST" "/v1/chat" (Some "null").

Definition null_routes : list Route :=
  [ request_merge_route "POST" "^/v1/chat$" {[ "temperature" := VInt 1 ]} ].

(** A template that renders [{"model":"llama3","max_tokens":100}] whatever
    the body, one that fails, and one that renders text that is not JSON. *)
Definition model_template : GoMap -> option string :=
  fun _ => Some ("{" ++ q "model" ++ ":" ++ q "llama3" ++ "," ++ q "max_tokens" ++ ":100}").



Definition template_action : ActionExec :=
  {| When := None; Template := "{...}"; Merge := ∅; Default := ∅;
     Delete := []; Stop := false |}.

(** Streaming lines. *)
Definition hello_line : string :=
  "data: {" ++ q "role" ++ ":" ++ q "assistant" ++ "," ++ q "content" ++ ":" ++ q "Hello" ++ "}".

Definition bare_line : string :=
  "{" ++ q "role" ++ ":" ++ q "assistant" ++ ", " ++ q "done" ++ ":true}".

Definition stream_route : Route :=
  response_merge_route "POST" "^/test$" {[ "transformed" := VBool true ]}.

End Examples.

(** ** The predicate tree as the specification reads it

    A second reading of a predicate node, in the words of the specification
    and independent of the loops of [evaluate]; the two are compared in the
    properties below. *)

Section PredicateReading.
Context `{GoLib}.

(** No two header names of the input differ by case alone (the names that
    net/http hands over are in canonical form). *)
Definition case_distinct (headers : gmap string string) : Prop :=
  forall name1 name2,
    is_Some (headers !! name1) -> is_Some (headers !! name2) ->
    Strings.ToLower name1 = Strings.ToLower name2 -> name1 = name2.

(** The body has the field and its text matches. *)
Definition body_field_matches (body : GoMap) (key : string) (pattern : PatternField) : Prop :=
  exists v, map_index body key = Some v /\ Matches pattern (fmt_Sprintf_v v) = true.

Definition query_field_matches (query : gmap string string) (key : string)
    (pattern : PatternField) : Prop :=
  exists v, query !! key = Some v /\ Matches pattern v = true.

(** The input has a header of that name, whatever the case of its letters,
    and its value matches. *)
Definition header_field_matches (headers : gmap string string) (key : string)
    (pattern : PatternField) : Prop :=
  exists name v,
    headers !! name = Some v /\
    Strings.ToLower name = Strings.ToLower key /\
    Matches pattern v = true.

(** Clause (1): every named field is present and matches. *)
Definition leaves_hold (b : BoolExpr) (body : GoMap) (headers query : gmap string string)
  : Prop :=
  (forall key pattern, Body b !! key = Some pattern -> body_field_matches body key pattern)
  /\ (forall key pattern, Query b !! key = Some pattern -> query_field_matches query key pattern)
  /\ (forall key pattern,
        Headers b !! key = Some pattern -> header_field_matches headers key pattern).

Fixpoint all_of (ps : list Prop) : Prop :=
  match ps with
  | [] => True
  | p :: rest => p /\ all_of rest
  end.

Fixpoint some_of (ps : list Prop) : Prop :=
  match ps with
  | [] => False
  | p :: rest => p \/ some_of rest
  end.

(** Clauses (1) to (4), joined by conjunction; a clause is present when its
    list is not empty, respectively when the pointer is not nil. *)
Fixpoint node_holds (b : BoolExpr) (body : GoMap) (headers query : gmap string string)
  {struct b} : Prop :=
  leaves_hold b body headers query
  /\ (And b <> [] -> all_of (List.map (fun e => node_holds e body headers query) (And b)))
  /\ (Or b <> [] -> some_of (List.map (fun e => node_holds e body headers query) (Or b)))
  /\ match Not b with
     | Some e => ~ node_holds e body headers query
     | None => True
     end.

(** The node with no leaf and no operator. *)
Definition empty_node : BoolExpr :=
  {| Body := ∅; Query := ∅; Headers := ∅; And := []; Or := []; Not := None |}.

End PredicateReading.

(** ** A streamed line as the specification reads it *)

(** The line carries the event-stream data marker. *)
Definition is_sse (line : string) : bool := Strings.HasPrefix line "data: ".

(** The payload of a line: what follows the marker, or the bare line. *)
Definition line_payload (line : string) : string :=
  if is_sse line then Strings.TrimPrefix line "data: " else line.

(** The marker again, for a line that had it. *)
Definition rewrap (line payload : string) : string :=
  if is_sse line then "data: " ++ payload else payload.

(** The completion sentinel of an event stream. *)
Definition done_line : string := "data: [DONE]".

(** The indices of the routes that a request carries in its context. *)
Definition matched_indices `{GoLib} (req : Request) : list Z :=
  match Context_Value req with
  | RouteContextValue v => indices v
  | _ => []
  end.

(** * Properties *)

(** ** The monad *)


Lemma bind_Panic {A B} (c : M A) (k : A -> M B) lg msg :
  c lg = Panic msg -> bind c k lg = Panic msg.
Proof. unfold bind. intros ->. reflexivity. Qed.

Lemma bind_ret {A B} (a : A) (k : A -> M B) lg : bind (ret a) k lg = k a lg.
Proof. reflexivity. Qed.

Lemma bind_inv {A B} (c : M A) (k : A -> M B) lg b lg2 :
  bind c k lg = Ok (b, lg2) ->
  exists a lg1, c lg = Ok (a, lg1) /\ k a lg1 = Ok (b, lg2).
Proof.
  unfold bind. destruct (c lg) as [[a lg1]|msg]; [|discriminate].
  intros Hk. exists a, lg1. split; [reflexivity | exact Hk].
Qed.

(** ** Writing a whole map into the body *)

Section MapLoops.

Implicit Types (m src av : gmap string value) (l : list (string * value)).

Lemma list_to_map_snoc_union l k (v : value) m :
  list_to_map (l ++ [(k, v)]) ∪ m = (list_to_map l : gmap string value) ∪ <[k := v]> m.
Proof.
  rewrite list_to_map_app. simpl.
  rewrite insert_empty, <- (assoc_L (∪)), <- insert_union_singleton_l.
  reflexivity.
Qed.

Lemma list_to_map_reverse_to_list m :
  list_to_map (reverse (map_to_list m)) = m.
Proof.
  rewrite <- (list_to_map_to_list m) at 2.
  apply list_to_map_proper.
  - rewrite fmap_reverse, reverse_Permutation. apply NoDup_fst_map_to_list.
  - apply reverse_Permutation.
Qed.


Lemma merge_entries_Panic l msg : foldl merge_entry (Panic msg) l = Panic msg.
Proof. induction l as [|[k v] l IH]; simpl; [reflexivity | exact IH]. Qed.


(** On the nil body the first assignment panics. *)
Lemma applyMerge_nil mergeValues av :
  mergeValues <> ∅ ->
  applyMerge None mergeValues av = Panic "assignment to entry in nil map".
Proof.
  intros Hne. unfold applyMerge.
  destruct (map_to_list mergeValues) as [|[k v] l] eqn:Hl.
  - apply map_to_list_empty_iff in Hl. contradiction.
  - simpl. apply merge_entries_Panic.
Qed.

Lemma assign_entries_Some l m :
  foldl assign_entry (Ok (Some m)) l = Ok (Some (list_to_map (reverse l) ∪ m)).
Proof.
  revert m. induction l as [|[k v] l IH]; intros m; simpl.
  - rewrite (left_id_L ∅ (∪)). reflexivity.
  - rewrite IH, reverse_cons, list_to_map_snoc_union. reflexivity.
Qed.

Lemma assign_all_Some m src : assign_all (Some m) src = Ok (Some (src ∪ m)).
Proof.
  unfold assign_all.
  rewrite assign_entries_Some, list_to_map_reverse_to_list. reflexivity.
Qed.

Lemma assign_all_empty (output : GoMap) : assign_all output ∅ = Ok output.
Proof. unfold assign_all. rewrite map_to_list_empty. reflexivity. Qed.

End MapLoops.

(** ** Pattern fields *)

Section PatternFieldFacts.
Context `{GoLib}.

Lemma Matches_iff (p : PatternField) (input : string) :
  Matches p input = true <->
  exists re, In re (Compiled p) /\ regexp_MatchString re input = true.
Proof. unfold Matches. apply existsb_exists. Qed.

Lemma Matches_nothing_compiled (patterns : list string) (input : string) :
  Matches {| Patterns := patterns; Compiled := [] |} input = false.
Proof. reflexivity. Qed.

(** A successful run of the loop of [Validate] appends one compiled
    expression per pattern, in order, each compiled under the flags. *)
Lemma compile_patterns_success (patterns : list string) (acc out : list regexp_Regexp) :
  compile_patterns patterns acc = (out, None) ->
  exists res,
    out = (acc ++ res)%list /\
    Forall2 (fun pattern re => regexp_Compile (regexFlags ++ pattern) = Some re) patterns res.
Proof.
  revert acc. induction patterns as [|pattern rest IH]; intros acc Hrun; simpl in Hrun.
  - injection Hrun as <-. exists []. split; [symmetry; apply app_nil_r | constructor].
  - destruct (regexp_Compile (regexFlags ++ pattern)) as [re|] eqn:Hre; [|discriminate].
    destruct (IH _ Hrun) as (res & -> & Hall).
    exists (re :: res). split.
    + rewrite <- app_assoc. reflexivity.
    + constructor; assumption.
Qed.

Lemma Validate_success (p0 p : PatternField) :
  PatternField_Validate p0 = (p, None) ->
  Patterns p = Patterns p0 /\
  Forall2 (fun pattern re => regexp_Compile (regexFlags ++ pattern) = Some re)
          (Patterns p0) (Compiled p).
Proof.
  unfold PatternField_Validate.
  destruct (compile_patterns (Patterns p0) []) as [compiled err] eqn:Hrun.
  intros [= <- ->]. simpl.
  destruct (compile_patterns_success _ _ _ Hrun) as (res & -> & Hall).
  split; [reflexivity | exact Hall].
Qed.

(** C8. For a pattern field compiled by [Validate], [Matches] is true on an
    input exactly when one of its patterns, compiled with the modifier
    [(?i)] put in front of it, matches the input in the sense of
    [MatchString] (an unanchored search); and a field with no pattern
    matches nothing. *)
Theorem Matches_some_pattern (p0 p : PatternField) (input : string) :
  PatternField_Validate p0 = (p, None) ->
  (Matches p input = true <->
   exists pattern re,
     In pattern (Patterns p0) /\
     regexp_Compile ("(?i)" ++ pattern) = Some re /\
     regexp_MatchString re input = true)
  /\ (Patterns p0 = [] -> Matches p input = false).
Proof.
  intros Hvalid. destruct (Validate_success _ _ Hvalid) as [_ Hall]. split.
  - rewrite Matches_iff. split.
    + intros (re & Hin & Hm).
      apply list_elem_of_In in Hin.
      destruct (proj1 (list_elem_of_lookup _ _) Hin) as [i Hi].
      destruct (Forall2_lookup_r _ _ _ _ _ Hall Hi) as (pattern & Hpat & Hre).
      exists pattern, re. split; [|split; assumption].
      apply list_elem_of_In, list_elem_of_lookup. eauto.
    + intros (pattern & re & Hin & Hre & Hm).
      apply list_elem_of_In in Hin.
      destruct (proj1 (list_elem_of_lookup _ _) Hin) as [i Hi].
      destruct (Forall2_lookup_l _ _ _ _ _ Hall Hi) as (re' & Hre' & Hc).
      change regexFlags with "(?i)" in Hc.
      assert (re' = re) as -> by congruence.
      exists re. split; [|assumption].
      apply list_elem_of_In, list_elem_of_lookup. eauto.
  - intros Hnone. rewrite Hnone in Hall.
    apply Forall2_nil_inv_l in Hall.
    unfold Matches. rewrite Hall. reflexivity.
Qed.

End PatternFieldFacts.

(** The pattern [prod], validated, matches [X-PROD-2]: folded case, found
    inside the input. *)
Lemma Matches_some_pattern_witness :
  PatternField_Validate (H := Mini.lib) {| Patterns := ["prod"]; Compiled := [] |}
    = (Examples.newPatternField "prod", None)
  /\ Matches (H := Mini.lib) (Examples.newPatternField "prod") "X-PROD-2" = true.
Proof.
  split; [reflexivity|].
  apply (proj1 (Matches_some_pattern (H := Mini.lib)
                  {| Patterns := ["prod"]; Compiled := [] |}
                  (Examples.newPatternField "prod") "X-PROD-2" eq_refl)).
  exists "prod". eexists. split; [left; reflexivity|]. split; reflexivity.
Defined.

(** ** The predicate tree *)

Section PredicateFacts.
Context `{GoLib}.

(** Induction on a predicate tree, with the hypothesis for every sub-node of
    [and], of [or] and of [not]. *)
Lemma BoolExpr_tree_ind (P : BoolExpr -> Prop) :
  (forall body query headers and_ or_ not_,
      Forall P and_ -> Forall P or_ -> (forall e, not_ = Some e -> P e) ->
      P (mkBoolExpr body query headers and_ or_ not_)) ->
  forall b, P b.
Proof.
  intros step. fix IH 1. intros [body query headers and_ or_ not_].
  apply step.
  - induction and_ as [|e rest IHrest]; constructor; [apply IH | exact IHrest].
  - induction or_ as [|e rest IHrest]; constructor; [apply IH | exact IHrest].
  - destruct not_ as [e|]; intros e' Heq; [|discriminate].
    injection Heq as <-. apply IH.
Qed.

Lemma all_of_Forall {A} (P : A -> Prop) (l : list A) :
  all_of (List.map P l) <-> Forall P l.
Proof.
  induction l as [|x l IH]; simpl.
  - split; [constructor | trivial].
  - rewrite Forall_cons, IH. reflexivity.
Qed.

Lemma some_of_Exists {A} (P : A -> Prop) (l : list A) :
  some_of (List.map P l) <-> Exists P l.
Proof.
  induction l as [|x l IH]; simpl.
  - split; [contradiction | intros Hex; inversion Hex].
  - rewrite Exists_cons, IH. reflexivity.
Qed.

(** A leaf loop succeeds exactly when every entry of the node's map finds
    its field and matches it. *)
Lemma leaf_loop_spec (m : gmap string PatternField) (input : gmap string string)
    (rename : string -> string) :
  forallb (fun '(key, pattern) => leaf_matches input (rename key) pattern) (map_to_list m)
    = true
  <-> forall key pattern,
        m !! key = Some pattern ->
        exists v, input !! rename key = Some v /\ Matches pattern v = true.
Proof.
  rewrite forallb_forall. split.
  - intros Hall key pattern Hm.
    specialize (Hall (key, pattern)). simpl in Hall.
    assert (In (key, pattern) (map_to_list m)) as Hin
      by (apply list_elem_of_In, elem_of_map_to_list; exact Hm).
    specialize (Hall Hin). unfold leaf_matches in Hall.
    destruct (input !! rename key) as [v|]; [|discriminate]. eauto.
  - intros Hall [key pattern] Hin.
    apply list_elem_of_In, elem_of_map_to_list in Hin.
    destruct (Hall _ _ Hin) as (v & Hv & Hmatch).
    unfold leaf_matches. rewrite Hv. exact Hmatch.
Qed.

(** When no two names of the input collide, the lower-cased copy holds a
    value under a lower-case name exactly when the input holds it under a
    name that lower-cases to it. *)
Lemma normalizeHeaders_lookup (headers : gmap string string) :
  case_distinct headers ->
  forall lower v,
    normalizeHeaders headers !! lower = Some v
    <-> exists name, headers !! name = Some v /\ Strings.ToLower name = lower.
Proof.
  unfold normalizeHeaders.
  apply (map_fold_weak_ind
           (fun (r m : gmap string string) =>
              case_distinct m ->
              forall lower v,
                r !! lower = Some v
                <-> exists name, m !! name = Some v /\ Strings.ToLower name = lower)).
  - intros _ lower v. rewrite lookup_empty. split; [discriminate|].
    intros (name & Hname & _). rewrite lookup_empty in Hname. discriminate.
  - intros i x m r Hfresh IH Hdistinct lower v.
    assert (case_distinct m) as Hm.
    { intros n1 n2 [v1 H1] [v2 H2] Heq.
      apply Hdistinct; [| |exact Heq].
      - exists v1. rewrite lookup_insert_ne; [exact H1 | congruence].
      - exists v2. rewrite lookup_insert_ne; [exact H2 | congruence]. }
    specialize (IH Hm).
    destruct (decide (Strings.ToLower i = lower)) as [Hi|Hi].
    + subst lower. rewrite lookup_insert_eq. split.
      * intros [= <-]. exists i. rewrite lookup_insert_eq. split; reflexivity.
      * intros (name & Hname & Hlow).
        assert (name = i) as ->.
        { apply Hdistinct; [eauto | | exact Hlow].
          exists x. apply lookup_insert_eq. }
        rewrite lookup_insert_eq in Hname. exact Hname.
    + rewrite lookup_insert_ne by exact Hi. rewrite IH. split.
      * intros (name & Hname & Hlow). exists name. split; [|exact Hlow].
        rewrite lookup_insert_ne; [exact Hname | congruence].
      * intros (name & Hname & Hlow). exists name. split; [|exact Hlow].
        rewrite lookup_insert_ne in Hname; [exact Hname | congruence].
Qed.

Lemma evaluateLeafMatchers_spec (b : BoolExpr) (body : GoMap)
    (headers query : gmap string string) :
  case_distinct headers ->
  evaluateLeafMatchers b (toStringMap body) (normalizeHeaders headers) query = true
  <-> leaves_hold b body headers query.
Proof.
  intros Hdistinct. unfold evaluateLeafMatchers, leaves_hold.
  rewrite !andb_true_iff.
  rewrite (leaf_loop_spec (Body b) _ (fun key => key)).
  rewrite (leaf_loop_spec (Query b) _ (fun key => key)).
  rewrite (leaf_loop_spec (Headers b) _ Strings.ToLower).
  unfold body_field_matches, query_field_matches, header_field_matches, map_index, toStringMap.
  split.
  - intros [[Hbody Hquery] Hheaders]. repeat split.
    + intros key pattern Hk. destruct (Hbody _ _ Hk) as (s & Hs & Hmatch).
      rewrite lookup_fmap in Hs.
      destruct (entries body !! key) as [v|]; [|discriminate].
      injection Hs as <-. eauto.
    + exact Hquery.
    + intros key pattern Hk. destruct (Hheaders _ _ Hk) as (v & Hv & Hmatch).
      apply (normalizeHeaders_lookup _ Hdistinct) in Hv.
      destruct Hv as (name & Hname & Hlow). eauto.
  - intros (Hbody & Hquery & Hheaders). repeat split.
    + intros key pattern Hk. destruct (Hbody _ _ Hk) as (v & Hv & Hmatch).
      exists (fmt_Sprintf_v v). rewrite lookup_fmap, Hv. split; [reflexivity | exact Hmatch].
    + exact Hquery.
    + intros key pattern Hk. destruct (Hheaders _ _ Hk) as (name & v & Hname & Hlow & Hmatch).
      exists v. split; [|exact Hmatch].
      apply (normalizeHeaders_lookup _ Hdistinct). eauto.
Qed.

Lemma length_pos_iff {A} (l : list A) : (0 <? length l)%nat = true <-> l <> [].
Proof.
  destruct l; simpl; split; try congruence; try discriminate; reflexivity.
Qed.

(** The early returns of [evaluate] amount to a conjunction. *)
Lemma evaluate_unfold (b : BoolExpr) (body : GoMap) (headers query : gmap string string) :
  evaluate b body headers query
  = evaluateLeafMatchers b (toStringMap body) (normalizeHeaders headers) query
    && (if (0 <? length (And b))%nat
        then forallb (fun e => evaluate e body headers query) (And b) else true)
    && (if (0 <? length (Or b))%nat
        then existsb (fun e => evaluate e body headers query) (Or b) else true)
    && match Not b with
       | Some e => negb (evaluate e body headers query)
       | None => true
       end.
Proof.
  destruct b as [bd qr hd and_ or_ not_]. simpl.
  destruct (evaluateLeafMatchers _ _ _ _); simpl; [|reflexivity].
  destruct (0 <? length and_)%nat; simpl.
  - destruct (forallb _ and_); simpl; [|reflexivity].
    destruct (0 <? length or_)%nat; simpl.
    + destruct (existsb _ or_); simpl; [|reflexivity].
      destruct not_ as [e|]; [destruct (evaluate e _ _ _)|]; reflexivity.
    + destruct not_ as [e|]; [destruct (evaluate e _ _ _)|]; reflexivity.
  - destruct (0 <? length or_)%nat; simpl.
    + destruct (existsb _ or_); simpl; [|reflexivity].
      destruct not_ as [e|]; [destruct (evaluate e _ _ _)|]; reflexivity.
    + destruct not_ as [e|]; [destruct (evaluate e _ _ _)|]; reflexivity.
Qed.

(** The loops of [evaluate] decide the reading of the specification. *)
Lemma evaluate_spec (body : GoMap) (headers query : gmap string string) :
  case_distinct headers ->
  forall b, evaluate b body headers query = true <-> node_holds b body headers query.
Proof.
  intros Hdistinct b.
  induction b as [bd qr hd and_ or_ not_ IHand IHor IHnot] using BoolExpr_tree_ind.
  rewrite evaluate_unfold. simpl node_holds.
  set (b := mkBoolExpr bd qr hd and_ or_ not_).
  rewrite all_of_Forall, some_of_Exists, !andb_true_iff.
  rewrite (evaluateLeafMatchers_spec b body headers query Hdistinct).
  simpl (And b). simpl (Or b). simpl (Not b).
  assert (forallb (fun e => evaluate e body headers query) and_ = true
          <-> Forall (fun e => node_holds e body headers query) and_) as Hand.
  { rewrite forallb_forall, Forall_forall. split; intros Hall e He.
    - apply (proj1 (Forall_forall _ _) IHand e He), Hall, list_elem_of_In, He.
    - apply list_elem_of_In in He.
      apply (proj1 (Forall_forall _ _) IHand e He), Hall, He. }
  assert (existsb (fun e => evaluate e body headers query) or_ = true
          <-> Exists (fun e => node_holds e body headers query) or_) as Hor.
  { rewrite existsb_exists, Exists_exists. split; intros (e & He & Hev).
    - apply list_elem_of_In in He. exists e. split; [exact He|].
      apply (proj1 (Forall_forall _ _) IHor e He), Hev.
    - exists e. split; [apply list_elem_of_In, He|].
      apply (proj1 (Forall_forall _ _) IHor e He), Hev. }
  assert ((if (0 <? length and_)%nat
           then forallb (fun e => evaluate e body headers query) and_ else true) = true
          <-> (and_ <> [] -> Forall (fun e => node_holds e body headers query) and_)) as Hand'.
  { destruct and_ as [|a rest].
    - simpl. split; [intros _ Hc; contradiction | reflexivity].
    - change (0 <? length (a :: rest))%nat with true. cbv iota. rewrite Hand.
      split; [intros Hall _; exact Hall | intros Hall; apply Hall; discriminate]. }
  assert ((if (0 <? length or_)%nat
           then existsb (fun e => evaluate e body headers query) or_ else true) = true
          <-> (or_ <> [] -> Exists (fun e => node_holds e body headers query) or_)) as Hor'.
  { destruct or_ as [|o rest].
    - simpl. split; [intros _ Hc; contradiction | reflexivity].
    - change (0 <? length (o :: rest))%nat with true. cbv iota. rewrite Hor.
      split; [intros Hex _; exact Hex | intros Hex; apply Hex; discriminate]. }
  assert (match not_ with
          | Some e => negb (evaluate e body headers query)
          | None => true
          end = true
          <-> match not_ with
              | Some e => ~ node_holds e body headers query
              | None => True
              end) as Hnot'.
  { destruct not_ as [e|]; [|split; trivial].
    specialize (IHnot e eq_refl).
    destruct (evaluate e body headers query); simpl.
    - split; [discriminate | intros Hn; exfalso; apply Hn, IHnot; reflexivity].
    - split; [intros _ Hh; apply IHnot in Hh; discriminate | reflexivity]. }
  rewrite Hand', Hor', Hnot'. tauto.
Qed.

(** C2. [Evaluate] is true for the nil node and for the empty node; for
    any node it is true exactly when every field named in its body, query
    and header maps is present in the input and matches (header names
    compared after lower-casing both sides), every sub-node of a non-empty
    [and] is true, some sub-node of a non-empty [or] is true, and the
    sub-node of [not] is false.  The input headers hold no two names that
    differ by case alone. *)
Theorem Evaluate_reads_as_specified (b : BoolExpr) (body : GoMap)
    (headers query : gmap string string) :
  case_distinct headers ->
  Evaluate None body headers query = true
  /\ Evaluate (Some empty_node) body headers query = true
  /\ (Evaluate (Some b) body headers query = true <-> node_holds b body headers query).
Proof.
  intros Hdistinct. split; [reflexivity|]. split.
  - simpl. unfold evaluateLeafMatchers. simpl. rewrite map_to_list_empty. reflexivity.
  - simpl. apply evaluate_spec, Hdistinct.
Qed.

End PredicateFacts.

Lemma case_distinct_singleton (name v : string) :
  case_distinct ({[ name := v ]} : gmap string string).
Proof.
  intros n1 n2 [v1 H1] [v2 H2] _.
  apply lookup_singleton_Some in H1 as [<- _].
  apply lookup_singleton_Some in H2 as [<- _].
  reflexivity.
Qed.

(** A node on the header [X-Env] holds for a request that sent [x-env]. *)
Lemma Evaluate_reads_as_specified_witness :
  case_distinct Examples.lower_case_headers
  /\ node_holds (H := Mini.lib) Examples.env_node None Examples.lower_case_headers ∅.
Proof.
  split; [apply case_distinct_singleton|].
  apply (proj1 (proj2 (proj2
           (Evaluate_reads_as_specified (H := Mini.lib) Examples.env_node None
              Examples.lower_case_headers ∅
              (case_distinct_singleton "x-env" "PROD-2"))))).
  vm_compute. reflexivity.
Defined.

(** ** The action pipeline *)

Section PipelineFacts.
Context `{GoLib}.

Lemma bind_ret_r {A} (c : M A) (lg : Log) : bind c ret lg = c lg.
Proof. unfold bind, ret. destruct (c lg) as [[a lg']|msg]; reflexivity. Qed.

(** When the loop arrives at an action that is not skipped and carries the
    stop flag, the pass ends with what that action leaves. *)
Lemma actions_from_stop (headers query : gmap string string)
    (templates : list (option template_Template)) (i : nat)
    (op : ActionExec) (rest : list ActionExec) (st : Pass) (lg : Log) :
  skipped op (data st) headers query = false ->
  Stop op = true ->
  actions_from headers query templates i (op :: rest) st lg
  = run_action templates i op st lg.
Proof.
  intros Hrun Hstop. simpl. rewrite Hrun.
  rewrite <- (bind_ret_r (run_action templates i op st) lg).
  unfold bind. destruct (run_action templates i op st lg) as [[st' lg']|msg]; [|reflexivity].
  rewrite Hstop. reflexivity.
Qed.

(** An unconditional action with the stop flag makes the pass independent
    of every action behind it, wherever it stands in the list. *)
Lemma actions_behind_stop_unused (headers query : gmap string string)
    (templates : list (option template_Template))
    (before : list ActionExec) (op : ActionExec) (behind behind' : list ActionExec) :
  When op = None ->
  Stop op = true ->
  forall (i : nat) (st : Pass) (lg : Log),
    actions_from headers query templates i (before ++ op :: behind) st lg
    = actions_from headers query templates i (before ++ op :: behind') st lg.
Proof.
  intros Hwhen Hstop. induction before as [|a before IH]; intros i st lg.
  - simpl app. rewrite !actions_from_stop; try exact Hstop; try reflexivity;
      unfold skipped; rewrite Hwhen; reflexivity.
  - simpl. destruct (skipped a (data st) headers query); [apply IH|].
    unfold bind. destruct (run_action templates i a st lg) as [[st' lg']|msg]; [|reflexivity].
    destruct (Stop a); [reflexivity | apply IH].
Qed.

End PipelineFacts.

(** C1. The pass of the three example actions over the body
    [{keep:"x", remove_me:"y"}] with the header [X-Env: prod] leaves the
    body [{keep:"x", seen:1}] and the applied values [seen:1] and
    [remove_me:"<deleted>"]; [unreachable] is in neither.  In general, when
    the loop arrives at an action that is not skipped and has the stop flag,
    the pass ends with the result of that action, whatever it changed and
    whatever actions follow. *)
Theorem stop_halts_the_phase :
  (processActions (H := Mini.lib) (Some Examples.stop_body) Examples.stop_headers ∅
     Examples.stop_ops [] []
   = Ok ({| data := Some {[ "keep" := VString "x"; "seen" := VInt 1 ]};
            appliedValues := {[ "seen" := VInt 1; "remove_me" := VString "<deleted>" ]};
            anyApplied := true |}, [])
   /\ ({[ "keep" := VString "x"; "seen" := VInt 1 ]} : gmap string value) !! "unreachable" = None
   /\ ({[ "seen" := VInt 1; "remove_me" := VString "<deleted>" ]} : gmap string value)
        !! "unreachable" = None)
  /\ (forall (L : GoLib) headers query templates i op rest st lg,
        skipped op (data st) headers query = false ->
        Stop op = true ->
        actions_from headers query templates i (op :: rest) st lg
        = run_action templates i op st lg)
  /\ (forall (L : GoLib) headers query templates before op behind behind' i st lg,
        When op = None ->
        Stop op = true ->
        actions_from headers query templates i (before ++ op :: behind) st lg
        = actions_from headers query templates i (before ++ op :: behind') st lg).
Proof.
  split; [|split].
  - split; [vm_compute; reflexivity | split; reflexivity].
  - intros L headers query templates i op rest st lg. apply actions_from_stop.
  - intros L headers query templates before op behind behind' i st lg Hwhen Hstop.
    apply actions_behind_stop_unused; assumption.
Qed.

(** The second example action, reached after the first: not skipped, stop
    set, so the third action is not run. *)
Lemma stop_halts_the_phase_witness :
  let st := {| data := Some (<[ "seen" := VInt 1 ]> Examples.stop_body);
               appliedValues := {[ "seen" := VInt 1 ]}; anyApplied := true |} in
  let op := {| When := Some {| Body := {[ "remove_me" := Examples.newPatternField ".*" ]};
                               Query := ∅; Headers := ∅;
                               And := []; Or := []; Not := None |};
               Template := ""; Merge := ∅; Default := ∅;
               Delete := ["remove_me"]; Stop := true |} in
  skipped (H := Mini.lib) op (data st) Examples.stop_headers ∅ = false
  /\ Stop op = true
  /\ actions_from (H := Mini.lib) Examples.stop_headers ∅ [] 1
       [op; merge_action {[ "unreachable" := VBool true ]}] st []
     = run_action (H := Mini.lib) [] 1 op st [].
Proof.
  intros st op. split; [vm_compute; reflexivity|]. split; [reflexivity|].
  apply (proj1 (proj2 stop_halts_the_phase) Mini.lib); [vm_compute|]; reflexivity.
Defined.

(** ** Templates *)

Section TemplateFacts.
Context `{GoLib}.

Lemma ExecuteTemplate_success (tmpl : template_Template) (input : GoMap)
    (m : gmap string value) (text : string) (result : GoMap) (lg : Log) :
  template_Execute tmpl input = Some text ->
  json_Unmarshal text = Some result ->
  ExecuteTemplate tmpl input (Some m) lg = Ok ((true, Some (entries result)), lg).
Proof.
  intros Hexec Hjson. unfold ExecuteTemplate. rewrite Hexec, Hjson.
  unfold bind, lift, delete_all. simpl fmap.
  rewrite assign_all_Some, (right_id_L ∅ (∪)). reflexivity.
Qed.


Lemma Template_nonempty (op : ActionExec) :
  Template op <> "" -> negb (String.eqb (Template op) "") = true.
Proof. intros Hne. apply negb_true_iff, String.eqb_neq, Hne. Qed.

(** C3. When the template of an action renders and the rendered text
    unmarshals, the template step leaves as body exactly the rendered
    object (no key of the old body survives unless rendered), copies every
    key of that body with its rendered value into the applied values and
    into the changes of the action, and marks the pass as changed.  The body
    is a map (an object). *)
Theorem template_replaces_body (templates : list (option template_Template)) (i : nat)
    (op : ActionExec) (st : Pass) (m : gmap string value) (tmpl : template_Template)
    (text : string) (result : GoMap) (changes : gmap string value) (lg : Log) :
  Template op <> "" ->
  templates !! i = Some (Some tmpl) ->
  data st = Some m ->
  template_Execute tmpl (Some m) = Some text ->
  json_Unmarshal text = Some result ->
  ExecuteTemplate tmpl (Some m) (Some m) lg = Ok ((true, Some (entries result)), lg)
  /\ template_step templates i op st changes lg
     = Ok (({| data := Some (entries result);
               appliedValues := entries result ∪ appliedValues st;
               anyApplied := true |},
            entries result ∪ changes), lg)
  /\ (forall key v,
        entries result !! key = Some v ->
        (entries result ∪ appliedValues st) !! key = Some v
        /\ (entries result ∪ changes) !! key = Some v)
  /\ (forall key, entries result !! key = None ->
        map_index (Some (entries result)) key = None).
Proof.
  intros Hne Htmpl Hdata Hexec Hjson.
  pose proof (ExecuteTemplate_success tmpl (Some m) m text result lg Hexec Hjson) as Hrun.
  split; [exact Hrun|]. split; [|split].
  - unfold template_step. rewrite (Template_nonempty _ Hne), Htmpl, Hdata.
    unfold bind. rewrite Hrun. reflexivity.
  - intros key v Hkey. split; apply lookup_union_Some_l, Hkey.
  - intros key Hkey. exact Hkey.
Qed.


End TemplateFacts.

(** The template that renders [{"model":"llama3","max_tokens":100}] run on
    the body [{keep:"x", remove_me:"y"}]. *)
Lemma template_replaces_body_witness :
  let st := {| data := Some Examples.stop_body; appliedValues := ∅; anyApplied := false |} in
  exists result changes' st',
    template_step (H := Mini.lib) [Some Examples.model_template] 0
      Examples.template_action st ∅ [] = Ok ((st', changes'), [])
    /\ data st' = Some result
    /\ appliedValues st' = result
    /\ dom result = {[ "model"; "max_tokens" ]}.
Proof.
  intros st.
  destruct (template_replaces_body (H := Mini.lib) [Some Examples.model_template] 0
              Examples.template_action st Examples.stop_body Examples.model_template
              _ _ ∅ []
              ltac:(discriminate) eq_refl eq_refl eq_refl eq_refl)
    as (_ & Hstep & _).
  eexists _, _, _. split; [exact Hstep|].
  split; [reflexivity|]. split; [vm_compute; reflexivity | vm_compute; reflexivity].
Defined.


(** ** Streaming *)

Lemma substring_whole (s : string) : substring 0 (String.length s) s = s.
Proof. induction s as [|c s IH]; simpl; [reflexivity | rewrite IH; reflexivity]. Qed.

(** A string with a prefix is the prefix followed by what [TrimPrefix]
    keeps. *)
Lemma HasPrefix_TrimPrefix (s p : string) :
  Strings.HasPrefix s p = true -> s = p ++ Strings.TrimPrefix s p.
Proof.
  unfold Strings.TrimPrefix. intros Hp. rewrite Hp.
  unfold Strings.HasPrefix in Hp. revert s Hp.
  induction p as [|a p IH]; intros s Hp.
  - simpl. rewrite Nat.sub_0_r, substring_whole. reflexivity.
  - destruct s as [|b s]; simpl in Hp; [discriminate|].
    destruct (ascii_dec a b) as [->|]; [|discriminate].
    simpl.
    change (String b s
            = String b (p ++ substring (String.length p)
                               (String.length s - String.length p) s)).
    f_equal. apply IH, Hp.
Qed.

Lemma not_done_line (line : string) :
  line <> done_line ->
  is_sse line && String.eqb (Strings.TrimPrefix line "data: ") "[DONE]" = false.
Proof.
  intros Hne. unfold is_sse.
  destruct (Strings.HasPrefix line "data: ") eqn:Hp; [|reflexivity].
  destruct (String.eqb (Strings.TrimPrefix line "data: ") "[DONE]") eqn:Hd; [|reflexivity].
  exfalso. apply Hne. apply String.eqb_eq in Hd.
  rewrite (HasPrefix_TrimPrefix _ _ Hp), Hd. reflexivity.
Qed.

Lemma nonempty_line (line : string) : line <> "" -> String.eqb line "" = false.
Proof. intros Hne. apply String.eqb_neq, Hne. Qed.

Section StreamingFacts.
Context `{GoLib}.

Lemma stream_line_blank headers query routes lg :
  stream_line headers query routes "" lg = Ok (newline, lg).
Proof. reflexivity. Qed.

Lemma stream_line_done headers query routes lg :
  stream_line headers query routes done_line lg = Ok (done_line ++ newline, lg).
Proof. reflexivity. Qed.

Lemma stream_line_not_json headers query routes line lg :
  line <> "" ->
  json_Unmarshal (line_payload line) = None ->
  stream_line headers query routes line lg = Ok (line ++ newline, lg).
Proof.
  intros Hne Hjson. unfold stream_line. rewrite (nonempty_line _ Hne).
  unfold line_payload, is_sse, sse_prefix in *.
  destruct (Strings.HasPrefix line "data: "); simpl andb; cbv iota.
  - destruct (String.eqb _ "[DONE]"); [reflexivity|]. rewrite Hjson. reflexivity.
  - rewrite Hjson. reflexivity.
Qed.

(** A line whose payload unmarshals is written as the marshalled body that
    the routes leave, under the marker if the line had it. *)
Lemma stream_line_json headers query routes line lg d d' modified applied lg' out :
  line <> "" ->
  line <> done_line ->
  json_Unmarshal (line_payload line) = Some d ->
  response_routes false headers query routes d false ∅ lg = Ok ((d', modified, applied), lg') ->
  json_Marshal d' = Some out ->
  stream_line headers query routes line lg = Ok (rewrap line out ++ newline, lg').
Proof.
  intros Hne Hnd Hjson Hroutes Hout. unfold stream_line.
  rewrite (nonempty_line _ Hne).
  pose proof (not_done_line _ Hnd) as Hsentinel.
  unfold line_payload, rewrap, is_sse, sse_prefix in *.
  rewrite Hsentinel, Hjson. unfold bind. rewrite Hroutes, Hout.
  destruct (Strings.HasPrefix line "data: "); simpl.
  - reflexivity.
  - reflexivity.
Qed.

(** The outputs stand in the order of the lines, one per line. *)
Lemma stream_lines_in_order headers query routes lines :
  forall lg outs lg',
    stream_lines headers query routes lines lg = Ok (outs, lg') ->
    Forall2 (fun line out =>
               exists lg1 lg2, stream_line headers query routes line lg1 = Ok (out, lg2))
            lines outs.
Proof.
  induction lines as [|line rest IH]; intros lg outs lg' Hrun; simpl in Hrun.
  - injection Hrun as <- _. constructor.
  - apply bind_inv in Hrun as (out & lg1 & Hline & Hrun).
    apply bind_inv in Hrun as (outs' & lg2 & Hrest & Hret).
    injection Hret as <- _.
    constructor; [eauto | eapply IH, Hrest].
Qed.

(** C5. Line by line, in the order of arrival: a blank line is written
    as a newline; the sentinel line and a line whose payload does not
    unmarshal are written as they came, with a newline; a line whose payload
    unmarshals into an object is written as the marshalled object that the
    routes leave, with the marker in front exactly when the line had it,
    and one newline. *)
Theorem streaming_line_by_line (headers query : gmap string string) (routes : list Route) :
  (forall lg, stream_line headers query routes "" lg = Ok (newline, lg))
  /\ (forall lg,
        stream_line headers query routes done_line lg = Ok (done_line ++ newline, lg))
  /\ (forall line lg,
        line <> "" ->
        json_Unmarshal (line_payload line) = None ->
        stream_line headers query routes line lg = Ok (line ++ newline, lg))
  /\ (forall line lg m d' modified applied lg' out,
        line <> "" ->
        line <> done_line ->
        json_Unmarshal (line_payload line) = Some (Some m) ->
        response_routes false headers query routes (Some m) false ∅ lg
          = Ok ((d', modified, applied), lg') ->
        json_Marshal d' = Some out ->
        stream_line headers query routes line lg
          = Ok ((if is_sse line then "data: " ++ out else out) ++ newline, lg'))
  /\ (forall lines lg outs lg',
        stream_lines headers query routes lines lg = Ok (outs, lg') ->
        Forall2 (fun line out =>
                   exists lg1 lg2, stream_line headers query routes line lg1 = Ok (out, lg2))
                lines outs).
Proof.
  split; [apply stream_line_blank|]. split; [apply stream_line_done|].
  split; [intros; apply stream_line_not_json; assumption|].
  split; [|apply stream_lines_in_order].
  intros line lg m d' modified applied lg' out Hne Hnd Hjson Hroutes Hout.
  apply (stream_line_json _ _ _ _ _ _ _ _ _ _ _ Hne Hnd Hjson Hroutes Hout).
Qed.

(** C10. A line whose payload unmarshals is marshalled again and written
    in that form when no route is given and when the routes report no
    change, so the bytes written may differ from the bytes read (the example
    line comes back with its keys in sorted order and without the space);
    the blank line, the sentinel and a payload that does not unmarshal are
    the lines written as they came. *)
Theorem streaming_always_remarshals (headers query : gmap string string) :
  (forall line lg d out,
      line <> "" ->
      line <> done_line ->
      json_Unmarshal (line_payload line) = Some d ->
      json_Marshal d = Some out ->
      stream_line headers query [] line lg = Ok (rewrap line out ++ newline, lg))
  /\ (forall routes line lg d applied lg' out,
        line <> "" ->
        line <> done_line ->
        json_Unmarshal (line_payload line) = Some d ->
        response_routes false headers query routes d false ∅ lg
          = Ok ((d, false, applied), lg') ->
        json_Marshal d = Some out ->
        stream_line headers query routes line lg = Ok (rewrap line out ++ newline, lg'))
  /\ (forall routes line lg,
        line = "" \/ line = done_line \/ json_Unmarshal (line_payload line) = None ->
        stream_line headers query routes line lg = Ok (line ++ newline, lg))
  /\ (exists out,
        stream_line (H := Mini.lib) ∅ ∅ [] Examples.bare_line [] = Ok (out, [])
        /\ out <> Examples.bare_line ++ newline).
Proof.
  split; [|split; [|split]].
  - intros line lg d out Hne Hnd Hjson Hout.
    apply (stream_line_json _ _ [] _ _ d d false ∅ lg out Hne Hnd Hjson eq_refl Hout).
  - intros routes line lg d applied lg' out Hne Hnd Hjson Hroutes Hout.
    apply (stream_line_json _ _ _ _ _ _ _ _ _ _ _ Hne Hnd Hjson Hroutes Hout).
  - intros routes line lg [->|[->|Hjson]].
    + apply stream_line_blank.
    + apply stream_line_done.
    + destruct (String.eqb line "") eqn:Hblank.
      * apply String.eqb_eq in Hblank as ->. apply stream_line_blank.
      * apply String.eqb_neq in Hblank. apply stream_line_not_json; assumption.
  - eexists. split; [vm_compute; reflexivity | vm_compute; discriminate].
Qed.

End StreamingFacts.

(** The line [data: {"role":"assistant","content":"Hello"}] through a route
    that merges [transformed:true]: the marker is kept. *)
Lemma streaming_line_by_line_witness :
  exists out lg,
    stream_line (H := Mini.lib) ∅ ∅ [Examples.stream_route] Examples.hello_line []
      = Ok ("data: " ++ out ++ newline, lg)
    /\ Examples.hello_line <> ""
    /\ Examples.hello_line <> done_line.
Proof.
  assert (Examples.hello_line <> "") as Hne
    by (intros Hc; vm_compute in Hc; discriminate Hc).
  assert (Examples.hello_line <> done_line) as Hnd
    by (intros Hc; vm_compute in Hc; discriminate Hc).
  eexists _, _. split; [|split; assumption].
  refine (eq_trans
            (proj1 (proj2 (proj2 (proj2
               (streaming_line_by_line (H := Mini.lib) ∅ ∅ [Examples.stream_route]))))
               Examples.hello_line [] _ _ _ _ _ _ Hne Hnd _ _ _) _).
  - vm_compute. reflexivity.
  - vm_compute. reflexivity.
  - vm_compute. reflexivity.
  - reflexivity.
Defined.

(** A bare line with no route: marshalled again, no marker added. *)
Lemma streaming_always_remarshals_witness :
  exists out,
    stream_line (H := Mini.lib) ∅ ∅ [] Examples.bare_line [] = Ok (out ++ newline, [])
    /\ Examples.bare_line <> ""
    /\ Examples.bare_line <> done_line.
Proof.
  assert (Examples.bare_line <> "") as Hne
    by (intros Hc; vm_compute in Hc; discriminate Hc).
  assert (Examples.bare_line <> done_line) as Hnd
    by (intros Hc; vm_compute in Hc; discriminate Hc).
  eexists. split; [|split; assumption].
  refine (eq_trans
            (proj1 (streaming_always_remarshals (H := Mini.lib) ∅ ∅)
               Examples.bare_line [] _ _ Hne Hnd _ _) _).
  - vm_compute. reflexivity.
  - vm_compute. reflexivity.
  - reflexivity.
Defined.

(** ** Routes *)

Section RouteFacts.
Context `{GoLib}.

Lemma size_pos (m : gmap string value) : m <> ∅ -> (0 <? size m)%nat = true.
Proof.
  intros Hne. apply Nat.ltb_lt.
  apply map_size_non_empty_iff in Hne. lia.
Qed.


(** On the nil body the same action panics. *)
Lemma merge_action_panics (templates : list (option template_Template)) (i : nat)
    (values : gmap string value) (st : Pass) (lg : Log) :
  values <> ∅ ->
  data st = None ->
  run_action templates i (merge_action values) st lg
  = Panic "assignment to entry in nil map".
Proof.
  intros Hne Hdata. unfold run_action, template_step, default_step, merge_step.
  simpl. rewrite map_size_empty. simpl. rewrite (size_pos _ Hne).
  cbv beta iota zeta delta [bind ret lift].
  rewrite Hdata, (applyMerge_nil _ _ Hne). reflexivity.
Qed.






End RouteFacts.

Lemma panic_message_Some {A} (r : Res A) msg :
  panic_message r = Some msg -> r = Panic msg.
Proof. destruct r; simpl; congruence. Qed.

(** The transaction of [TestModifyResponseAppliesAllMatchedRules]: both
    routes match, the request keeps its body, the response gains both keys. *)
Example chat_transaction :
  match ModifyRequest (H := Mini.lib)
          (Examples.request "POST" "/v1/chat" (Some Examples.original_body))
          Examples.chat_routes [] with
  | Ok (req', lg) =>
      match ModifyResponse
              (Examples.response "application/json" Examples.original_body req')
              Examples.chat_routes lg with
      | Ok ((resp', err), lg') =>
          Some (Request_Body req', matched_indices req', Response_Body resp', err, lg')
      | Panic _ => None
      end
  | Panic _ => None
  end
  = Some (Some Examples.original_body,
          [0; 1]%Z,
          "{" ++ Examples.q "first" ++ ":true," ++ Examples.q "original" ++ ":true,"
              ++ Examples.q "second" ++ ":" ++ Examples.q "yes" ++ "}",
          None, []).
Proof. vm_compute. reflexivity. Qed.


(** ** The nil body *)

(** C6 (the code departs from the claim). A body that is the literal
    null unmarshals without error into the nil map, and the first assignment
    into it panics: in the request processor, in the response processor and
    in the streaming loop, for a route that merges, and in the pipeline for
    an action that sets a default or renders a template; in general for
    every unconditional merge of a non-empty map. *)
Theorem null_body_panics :
  ModifyRequest (H := Mini.lib) Examples.null_request Examples.null_routes []
    = Panic "assignment to entry in nil map"
  /\ ModifyResponse (H := Mini.lib)
       (Examples.response "application/json" "null"
          (Examples.matched_request "POST" "/v1/chat" Examples.chat_routes))
       Examples.chat_routes []
     = Panic "assignment to entry in nil map"
  /\ stream_line (H := Mini.lib) ∅ ∅ [Examples.stream_route] "null" []
     = Panic "assignment to entry in nil map"
  /\ processActions (H := Mini.lib) None ∅ ∅ [Examples.default_action] [None] []
     = Panic "assignment to entry in nil map"
  /\ processActions (H := Mini.lib) None ∅ ∅
       [Examples.template_action] [Some Examples.model_template] []
     = Panic "assignment to entry in nil map"
  /\ (forall (L : GoLib) templates i values st lg,
        values <> ∅ -> data st = None ->
        run_action templates i (merge_action values) st lg
        = Panic "assignment to entry in nil map").
Proof.
  split; [apply panic_message_Some; vm_compute; reflexivity|].
  split; [apply panic_message_Some; vm_compute; reflexivity|].
  split; [vm_compute; reflexivity|].
  split; [vm_compute; reflexivity|].
  split; [vm_compute; reflexivity|].
  intros L templates i values st lg. apply merge_action_panics.
Qed.

(** An unconditional merge of [temperature:1] into the nil body. *)
Lemma null_body_panics_witness :
  ({[ "temperature" := VInt 1 ]} : gmap string value) <> ∅
  /\ run_action (H := Mini.lib) [None] 0 (merge_action {[ "temperature" := VInt 1 ]})
       {| data := None; appliedValues := ∅; anyApplied := false |} []
     = Panic "assignment to entry in nil map".
Proof.
  split; [apply insert_non_empty|].
  apply (proj2 (proj2 (proj2 (proj2 (proj2 null_body_panics)))) Mini.lib).
  - apply insert_non_empty.
  - reflexivity.
Defined.

(** ** The template helper [default] *)

(** On the values that unmarshalling produces, [default] returns the
    fallback for nil, the empty string, a float zero of either sign and
    false, and the value itself otherwise. *)
Lemma default_on_json_values (def val : value) :
  match val with
  | VNil | VString "" | VFloat (S754_zero _) | VBool false =>
      TemplateFuncs_default def val = def
  | VInt _ => True
  | _ => TemplateFuncs_default def val = val
  end.
Proof.
  destruct val as [|b|n|f|s|l|m]; simpl; try reflexivity; try exact I.
  - destruct b; reflexivity.
  - destruct f as [sg|sg| |sg mant e]; try reflexivity.
    + destruct sg; reflexivity.
    + destruct sg; reflexivity.
  - destruct s; reflexivity.
Qed.

(** C9 (the code departs from the claim). A zero of Go type [int], which
    [checkKind] counts as a number, is not treated as a zero value:
    [default] returns it and not the fallback. *)
Theorem default_keeps_integer_zero :
  TemplateFuncs_default (VString "fallback") (VInt 0) = VInt 0
  /\ TemplateFuncs_default (VString "fallback") (VFloat (S754_zero false))
     = VString "fallback"
  /\ checkKind "number" (VInt 0) [] = Ok (true, [])
  /\ checkKind "number" (VFloat (S754_zero false)) [] = Ok (true, []).
Proof. repeat split. Qed.
